(** * rag-to-agent: citation rendering, structured outputs, retrieval tool,
      and the budgeted research loops.

    The development follows [src/prompts.py] and [src/mcp_retrieval.py].
    Python [str] values are modelled as [string], [Optional[str]] as
    [option string], [list[...]] as [list], and a [dict] read with [.get]
    as a [gmap] read with [!!]. *)

From Stdlib Require Import ZArith Ascii String.
From stdpp Require Import base option list gmap strings.

Local Open Scope string_scope.
Local Open Scope list_scope.
Local Open Scope nat_scope.

(** ** Python string helpers *)

Module Py.

(** The one-character string [chr(10)], written ["\n"] in the source. *)
Definition newline_char : ascii := ascii_of_nat 10.
Definition newline : string := String newline_char EmptyString.

(** Truthiness of a [str]: the empty string is falsy. *)
Definition str_truthy (s : string) : bool :=
  match s with
  | EmptyString => false
  | String _ _ => true
  end.

(** Truthiness of an [Optional[str]]: [None] and [""] are falsy. *)
Definition truthy (o : option string) : bool :=
  match o with
  | None => false
  | Some s => str_truthy s
  end.

(** What an f-string placeholder [{x}] prints for an [Optional[str]]. *)
Definition format_value (o : option string) : string :=
  match o with
  | None => "None"
  | Some s => s
  end.

(** [sep.join(parts)]. *)
Fixpoint join (sep : string) (parts : list string) : string :=
  match parts with
  | [] => EmptyString
  | [p] => p
  | p :: rest => p +:+ sep +:+ join sep rest
  end.

(** [s.split("\n")]: the maximal newline-free pieces of [s], in order.
    The empty string splits into one empty piece. *)
Fixpoint split_lines (s : string) : list string :=
  match s with
  | EmptyString => [EmptyString]
  | String c s' =>
      if Ascii.eqb c newline_char then EmptyString :: split_lines s'
      else match split_lines s' with
           | [] => [String c EmptyString]
           | l :: ls => String c l :: ls
           end
  end.

(** [ "\n" not in s ]. *)
Fixpoint newline_free (s : string) : bool :=
  match s with
  | EmptyString => true
  | String c s' => negb (Ascii.eqb c newline_char) && newline_free s'
  end.

End Py.

(** ** Citation model ([src/prompts.py], lines 9-36) *)

Record AnswerStatement := {
  reasoning : string;
  answer_sentece : string;
  reference_url : option string;
  reference_title : option string
}.

Record AnswerWithCitations := {
  statements : list AnswerStatement
}.

(** The value of the local [text] once the body of the [for] loop has run
    for [statement]. *)
Definition statement_text (statement : AnswerStatement) : string :=
  let text := answer_sentece statement in
  if Py.truthy (reference_url statement) && Py.truthy (reference_title statement)
  then text +:+ " [[" +:+ Py.format_value (reference_title statement)
            +:+ "](" +:+ Py.format_value (reference_url statement) +:+ ")]"
  else text.

(** The frame of one call of [format_response]: the receiver and the two
    locals.  Strings are immutable, so [text += ...] rebinds [text];
    [answer_text.append] grows the local list; nothing assigns to [self]. *)
Record Frame := {
  self_ : AnswerWithCitations;
  answer_text : list string;
  text : string
}.

Definition assign_text (v : string) (fr : Frame) : Frame :=
  {| self_ := self_ fr; answer_text := answer_text fr; text := v |}.

Definition append_answer_text (fr : Frame) : Frame :=
  {| self_ := self_ fr; answer_text := answer_text fr ++ [text fr]; text := text fr |}.

(** One iteration of the loop body. *)
Definition loop_body (fr : Frame) (statement : AnswerStatement) : Frame :=
  let fr := assign_text (answer_sentece statement) fr in
  let fr :=
    if Py.truthy (reference_url statement) && Py.truthy (reference_title statement)
    then assign_text
           (text fr +:+ " [[" +:+ Py.format_value (reference_title statement)
                    +:+ "](" +:+ Py.format_value (reference_url statement) +:+ ")]")
           fr
    else fr in
  append_answer_text fr.

(** A call of the method: the returned string together with the receiver
    as the call leaves it. *)
Definition call_format_response (self : AnswerWithCitations)
  : string * AnswerWithCitations :=
  let fr0 := {| self_ := self; answer_text := []; text := EmptyString |} in
  let fr := fold_left loop_body (statements self) fr0 in
  (Py.join Py.newline (answer_text fr), self_ fr).

Definition format_response (self : AnswerWithCitations) : string :=
  fst (call_format_response self).

(** ** Structured outputs of the clarification and planning prompts
       ([src/prompts.py], lines 294-391)

    Both classes are plain [BaseModel]s: every field is declared with a type
    and a description, and the source attaches no validator to either.  A
    constructor call is modelled with one optional argument per keyword
    ([None]: the keyword is not passed); it fails only when a field that
    has no default is missing. *)

Record ClarificationOutput := {
  clarification_is_required : bool;
  clarifying_question : option string;
  final_statements : list string
}.

Definition new_ClarificationOutput
    (kw_clarification_is_required : option bool)
    (kw_clarifying_question : option (option string))
    (kw_final_statements : option (list string))
  : option ClarificationOutput :=
  required ← kw_clarification_is_required;
  stmts ← kw_final_statements;
  Some {| clarification_is_required := required;
          clarifying_question := default None kw_clarifying_question;
          final_statements := stmts |}.

Record ClarificationInput := {
  ci_messages : list string
}.

Record PlannerOutput := {
  reasoning_on_topics : string;
  expanded_topics : list string;
  reasoning_on_plan : string;
  plan : list string
}.

Definition new_PlannerOutput
    (kw_reasoning_on_topics : option string)
    (kw_expanded_topics : option (list string))
    (kw_reasoning_on_plan : option string)
    (kw_plan : option (list string))
  : option PlannerOutput :=
  rt ← kw_reasoning_on_topics;
  et ← kw_expanded_topics;
  rp ← kw_reasoning_on_plan;
  pl ← kw_plan;
  Some {| reasoning_on_topics := rt; expanded_topics := et;
          reasoning_on_plan := rp; plan := pl |}.

Record PlannerInput := {
  pi_messages : string;
  search_topics : list string
}.

(** The double-quote character, for the literals below that contain one. *)
Definition dquote : string := String (ascii_of_nat 34) EmptyString.

(** [ClarificationPrompt.examples].  The second example's list holds a single
    string: the source juxtaposes two literals without a comma. *)
Definition ClarificationPrompt_examples
  : list (ClarificationInput * ClarificationOutput) :=
  [ ({| ci_messages := [ "What is the capital of France?" ] |},
     {| clarification_is_required := false;
        clarifying_question := None;
        final_statements := [ "Capital of France" ] |});
    ({| ci_messages := [ "Tell me about the Python programming language.";
            "I want to know about its history and features." ] |},
     {| clarification_is_required := false;
        clarifying_question := None;
        final_statements := [ "Python programming language historyPython language features" ] |});
    ({| ci_messages := [ "What are the health benefits of eating apples?" ] |},
     {| clarification_is_required := true;
        clarifying_question := Some "Are you interested in the nutritional benefits, or the benefits for specific health conditions?";
        final_statements := [] |});
    ({| ci_messages := [ "Can you tell me about the book '1984'?";
            "I want to know about its author and main themes." ] |},
     {| clarification_is_required := false;
        clarifying_question := None;
        final_statements := [ "Book '1984' author";
            "Book '1984' main themes" ] |}) ].

(** [PlanPrompt.examples]. *)
Definition PlanPrompt_examples : list (PlannerInput * PlannerOutput) :=
  [ ({| pi_messages := ("User goal: Find a new gravel bike for long mixed-terrain rides (fire roads, light singletrack). Budget around $2,500. Priorities: comfort over speed, tubeless tires, endurance geometry. Rider height 5'10" +:+ dquote +:+ " (178 cm). No brand preference.");
        search_topics := [ "Research new bikes";
            "Find a new gravel bike" ] |},
     {| reasoning_on_topics := ("Break the generic request into concrete, decision-making topics that directly affect suitability: intended terrain and riding profile, budget-constrained model shortlist (2024–2025), fit and geometry for 5'10" +:+ dquote +:+ " rider, frame material trade-offs, drivetrain configuration (1x vs 2x) for mixed terrain, tire clearance and wheel/tire compatibility (tubeless), braking and mounting points for endurance comfort, and authoritative review sources for triangulation. Limit to <=10 distinct topics.");
        expanded_topics := [ "Riding profile and terrain requirements (endurance, mixed surface)";
            "Model shortlist 2024–2025 within ~$2,500 budget";
            ("Fit guidance and endurance geometry for 5'10" +:+ dquote +:+ " rider");
            "Frame material trade-offs (alloy vs carbon vs steel) for comfort";
            "Drivetrain choice trade-offs (1x vs 2x) for varied gradients";
            "Tire clearance, tubeless compatibility, and wheel standards";
            "Mounting points (bags, extra bottles) and comfort features";
            "Reliable review sources and long-ride test impressions" ];
        reasoning_on_plan := "Choose exactly three non-overlapping steps that each answer a single, specific question while covering the decision funnel: (1) confirm a budget-constrained model pool; (2) determine fit/geometry for the rider; (3) compare key build trade-offs for endurance comfort.";
        plan := [ "Which 2024–2025 gravel bike models under $2,500 are best-reviewed for endurance comfort on mixed terrain (list 5–8 models with sources)?";
            ("What size and endurance-oriented geometry characteristics best fit a 5'10" +:+ dquote +:+ " (178 cm) rider among those models (reach, stack, size guidance)?");
            "For long mixed-terrain rides at this budget, what are the practical trade-offs between frame materials and 1x vs 2x drivetrains for comfort and range?" ] |});
    ({| pi_messages := "User asks: Who is the King of England? Provide authoritative, current information with context (regnal name, accession and coronation dates, and a note on the proper title referring to the United Kingdom).";
        search_topics := [ "Current UK monarch";
            "Who is the King of England" ] |},
     {| reasoning_on_topics := "Expand to discrete, checkable facts from authoritative sources: identity and regnal name; accession and coronation timeline; and official title terminology distinguishing 'King of England' vs 'King of the United Kingdom'.";
        expanded_topics := [ "Identity of the current monarch of the United Kingdom";
            "Regnal name and styling";
            "Accession date and circumstances";
            "Coronation date and key ceremony details";
            "Official title/terminology guidance (UK vs 'England')";
            "Authoritative sources (Royal Family, UK government, BBC, Britannica)" ];
        reasoning_on_plan := "Sequence the research to ensure verification before interpretation: first confirm identity and regnal details; then verify key dates; finally clarify official styling. Each step is a single, narrowly defined question.";
        plan := [ "Who is the current monarch of the United Kingdom and what is the correct regnal name?";
            "What are the accession and coronation dates for the current monarch (with 2+ authoritative citations)?";
            "What is the proper official title and why is 'King of England' imprecise in modern usage?" ] |});
    ({| pi_messages := "User request: Summarize Kubernetes' origin and governance. Include where it started, first public release timing, and how CNCF stewards the project today. Keep steps distinct and precise.";
        search_topics := [ "Kubernetes origin";
            "Kubernetes CNCF governance" ] |},
     {| reasoning_on_topics := "Split into origin/provenance, public release timing, and transition to CNCF governance; also capture high-level capabilities to provide context but keep the plan focused on verifiable historical/governance facts.";
        expanded_topics := [ "Kubernetes origin at Google (internal history, project roots)";
            "Initial public release timing (year/version)";
            "Donation to CNCF (year and rationale)";
            "Current CNCF governance model (SIGs, TOC, maintainers)";
            "Official sources (kubernetes.io, CNCF blog, Wikipedia)" ];
        reasoning_on_plan := "Address the user's facets in three narrow questions: origin, CNCF transition, and current governance structure.";
        plan := [ "Where did Kubernetes originate and in what year was it first publicly released?";
            "When was Kubernetes donated to the Cloud Native Computing Foundation and why?";
            "How is Kubernetes governed today under CNCF (key bodies and roles)?" ] |}) ].

(** The pairing the field descriptions ask of a clarification decision. *)
Definition clarification_pairing (c : ClarificationOutput) : Prop :=
  (is_Some (clarifying_question c) ↔ clarification_is_required c = true)
  ∧ (final_statements c ≠ [] ↔ clarification_is_required c = false).

(** The shape the field descriptions ask of a plan. *)
Definition plan_shape (p : PlannerOutput) : Prop :=
  length (plan p) = 3 ∧ NoDup (plan p) ∧ (length (expanded_topics p) ≤ 10)%nat.

(** ** Retrieval tool ([src/mcp_retrieval.py], lines 80-113) *)

(** A Python value as a metadata dictionary can hold it.  A float is kept
    as the literal that denotes it. *)
Inductive PyValue :=
| PyNone
| PyStr (s : string)
| PyInt (z : Z)
| PyBool (b : bool)
| PyFloat (literal : string).

(** A retrieved document: its text and its metadata dictionary, whose values
    are of any of these kinds. *)
Record Document := {
  page_content : string;
  metadata : gmap string PyValue
}.

(** [d.get(key)]: the value under [key], and [None] when there is none. *)
Definition dict_get (d : gmap string PyValue) (key : string) : PyValue :=
  default PyNone (d !! key).

Record DocModel := {
  content : string;
  url : option string;
  title : option string
}.

(** Validation of a field declared [str | None]: [None] and strings pass;
    any other value is a validation error, the outer [None]. *)
Definition validate_optional_str (v : PyValue) : option (option string) :=
  match v with
  | PyNone => Some None
  | PyStr s => Some (Some s)
  | PyInt _ | PyBool _ | PyFloat _ => None
  end.

(** [DocModel(content=..., url=..., title=...)]; the outer [None] stands for
    the validation error the constructor raises. *)
Definition new_DocModel (kw_content : string) (kw_url kw_title : PyValue)
  : option DocModel :=
  u ← validate_optional_str kw_url;
  t ← validate_optional_str kw_title;
  Some {| content := kw_content; url := u; title := t |}.

(** A value that a [str | None] field accepts. *)
Definition str_or_None (v : PyValue) : Prop :=
  v = PyNone ∨ ∃ s, v = PyStr s.

Section Retrieval.

(** [get_tool_client().retriever.ainvoke(query, k=top_k)]: the retriever
    built in [ToolClient], an external collaborator. *)
Variable ainvoke : string → Z → list Document.

(** The item built for one retrieved document. *)
Definition doc_item (doc : Document) : option DocModel :=
  new_DocModel (page_content doc)
    (dict_get (metadata doc) "url") (dict_get (metadata doc) "title").

(** [top_k] is [None] when the caller leaves the argument out.  The items
    are built in order; the first validation error ends the call, and the
    result is then [None]. *)
Definition retrieve_docs (query : string) (top_k : option Z)
  : option (list DocModel) :=
  let top_k := default 3%Z top_k in
  let results := ainvoke query top_k in
  mapM doc_item results.

End Retrieval.

(** ** Delegation payloads ([src/prompts.py], lines 654-670) *)

Record SubagentInput := {
  original_request : string;
  research_topic : string
}.

Record SubagentOutput := {
  report : string;
  references : list string
}.

(** ** Research worker *)

Module Worker.

(** Modelled from the spec: the kind of a tool call (data model,
    ToolCallRecord); the worker loop is not among the source files, which
    hold only its prompt. *)
Inductive ToolKind := retrieval | web_search | note.

(** Modelled from the spec: ToolCallRecord, the bookkeeping entry a worker
    keeps per tool call. *)
Record ToolCallRecord := {
  kind : ToolKind;
  query : string;
  result_count : Z
}.

(** Modelled from the spec: a call is search-type when it is a retrieval
    or a web search; the note primitive is not. *)
Definition is_search (r : ToolCallRecord) : bool :=
  match kind r with
  | retrieval | web_search => true
  | note => false
  end.

(** Modelled from the spec: the number of search-type calls in a log. *)
Definition search_calls (log : list ToolCallRecord) : nat :=
  length (List.filter is_search log).

(** Modelled from the spec: the number of note calls in a log. *)
Definition note_calls (log : list ToolCallRecord) : nat :=
  length (List.filter (λ r, negb (is_search r)) log).

(** Modelled from the spec: the external collaborators of a worker (tool
    invoker and generation capability).  Each decision may depend on the
    whole call log; nothing is assumed about them. *)
Record Collaborators := {
  pick_web : list ToolCallRecord → bool;
  pick_query : list ToolCallRecord → string;
  search_results : ToolKind → string → Z;
  reflection : list ToolCallRecord → string;
  confident : list ToolCallRecord → bool;
  sources_gathered : list ToolCallRecord → nat;
  last_two_similar : list ToolCallRecord → bool;
  write_report : SubagentInput → list ToolCallRecord → SubagentOutput
}.

(** Modelled from the spec: the states of the worker's state machine,
    Start, Searching, Reflecting, Answering, Done. *)
Inductive Phase := Start | Searching | Reflecting | Answering | Done.

(** Modelled from the spec: the four stop conditions. *)
Inductive StopReason :=
  ConfidentAnswer | EnoughSources | DiminishingReturns | BudgetExhausted.

(** Modelled from the spec: the stop conditions, checked after each
    reflection in priority order; any one of them ends the loop. *)
Definition stop_condition (c : Collaborators) (max_tool_calls : nat)
    (log : list ToolCallRecord) : option StopReason :=
  if confident c log then Some ConfidentAnswer
  else if (2 <=? sources_gathered c log)%nat then Some EnoughSources
  else if last_two_similar c log then Some DiminishingReturns
  else if (max_tool_calls <=? search_calls log)%nat then Some BudgetExhausted
  else None.

(** Modelled from the spec: what a worker holds while it runs. *)
Record State := {
  phase : Phase;
  calls : list ToolCallRecord;
  stopped_by : option StopReason;
  result : option SubagentOutput
}.

(** Modelled from the spec: a worker starts in Start with an empty log. *)
Definition init : State :=
  {| phase := Start; calls := []; stopped_by := None; result := None |}.

(** Modelled from the spec: the search call a worker issues next. *)
Definition search_call (c : Collaborators) (log : list ToolCallRecord)
  : ToolCallRecord :=
  let k := if pick_web c log then web_search else retrieval in
  let q := pick_query c log in
  {| kind := k; query := q; result_count := search_results c k q |}.

(** Modelled from the spec: the note call that follows a search. *)
Definition note_call (c : Collaborators) (log : list ToolCallRecord)
  : ToolCallRecord :=
  {| kind := note; query := reflection c log; result_count := 0 |}.

(** Modelled from the spec: one transition of the worker.  Start moves to
    Searching; Searching issues one search call and moves to Reflecting;
    Reflecting issues the note and checks the stop conditions.  The budget
    is a hard ceiling: a worker in Searching whose budget is already used
    up is forced to Answering (the BudgetExceeded forced stop of the
    error-handling section) instead of calling a search tool. *)
Definition step (c : Collaborators) (task : SubagentInput)
    (max_tool_calls : nat) (st : State) : State :=
  match phase st with
  | Start =>
      {| phase := Searching; calls := calls st;
         stopped_by := None; result := None |}
  | Searching =>
      if (search_calls (calls st) <? max_tool_calls)%nat
      then {| phase := Reflecting;
              calls := calls st ++ [search_call c (calls st)];
              stopped_by := None; result := None |}
      else {| phase := Answering; calls := calls st;
              stopped_by := Some BudgetExhausted; result := None |}
  | Reflecting =>
      let log := calls st ++ [note_call c (calls st)] in
      match stop_condition c max_tool_calls log with
      | Some why =>
          {| phase := Answering; calls := log;
             stopped_by := Some why; result := None |}
      | None =>
          {| phase := Searching; calls := log;
             stopped_by := None; result := None |}
      end
  | Answering =>
      {| phase := Done; calls := calls st; stopped_by := stopped_by st;
         result := Some (write_report c task (calls st)) |}
  | Done => st
  end.

(** Modelled from the spec: the worker after [n] transitions. *)
Fixpoint run (c : Collaborators) (task : SubagentInput)
    (max_tool_calls : nat) (n : nat) (st : State) : State :=
  match n with
  | O => st
  | S n' => run c task max_tool_calls n' (step c task max_tool_calls st)
  end.

(** Modelled from the spec: [execute(task, max_tool_calls)], the worker
    run from Start for as many transitions as any budgeted run needs. *)
Definition execute (c : Collaborators) (task : SubagentInput)
    (max_tool_calls : nat) : State :=
  run c task max_tool_calls (2 * max_tool_calls + 3) init.

(** Modelled from the spec: an upper bound on the transitions left before
    Done, read off the state machine; the measure of the termination
    argument. *)
Definition remaining (max_tool_calls : nat) (st : State) : nat :=
  let d := (max_tool_calls - search_calls (calls st))%nat in
  match phase st with
  | Start => 2 * max_tool_calls + 3
  | Searching => Nat.max 2 (2 * d + 1)
  | Reflecting => 2 * d + 2
  | Answering => 1
  | Done => 0
  end.

End Worker.

(** ** Research supervisor *)

Module Supervisor.

(** Modelled from the spec: the scheduler's bookkeeping; the supervisor
    loop is not among the source files, which hold only its prompt.
    [pending] is the queue of tasks waiting for a slot, [in_flight] the
    tasks handed to a worker and not yet returned, [slots] the results
    indexed by dispatch position.  A task carries its position. *)
Record State := {
  pending : list (nat * SubagentInput);
  in_flight : list (nat * SubagentInput);
  slots : list (option SubagentOutput)
}.

(** Modelled from the spec: a run starts with nothing queued and nothing
    in flight. *)
Definition init : State :=
  {| pending := []; in_flight := []; slots := [] |}.

(** Modelled from the spec: what can happen during a run.  The supervisor
    decides on a task ([Submit]), a queued task is handed to a worker
    ([Dispatch]), a worker returns ([Complete]). *)
Inductive Event :=
| Submit (task : SubagentInput)
| Dispatch
| Complete (slot : nat) (r : SubagentOutput).

(** Modelled from the spec: the task whose reserved slot is [slot]. *)
Definition has_slot (slot : nat) (e : nat * SubagentInput) : bool :=
  Nat.eqb (fst e) slot.

(** Modelled from the spec: one event.  A task is dispatched only while
    fewer than [max_concurrent_research_units] tasks are in flight;
    otherwise it stays queued.  A result is written into the slot reserved
    for its task.  [None]: the event cannot happen in this state. *)
Definition step (max_concurrent_research_units : nat) (ev : Event)
    (st : State) : option State :=
  match ev with
  | Submit task =>
      Some {| pending := pending st ++ [(length (slots st), task)];
              in_flight := in_flight st;
              slots := slots st ++ [None] |}
  | Dispatch =>
      match pending st with
      | [] => None
      | t :: rest =>
          if (length (in_flight st) <? max_concurrent_research_units)%nat
          then Some {| pending := rest;
                       in_flight := in_flight st ++ [t];
                       slots := slots st |}
          else None
      end
  | Complete slot r =>
      if existsb (has_slot slot) (in_flight st)
      then Some {| pending := pending st;
                   in_flight :=
                     List.filter (λ e, negb (has_slot slot e)) (in_flight st);
                   slots := <[slot := Some r]> (slots st) |}
      else None
  end.

(** Modelled from the spec: a run is a sequence of events from [init]. *)
Fixpoint run (max_concurrent_research_units : nat) (evs : list Event)
    (st : State) : option State :=
  match evs with
  | [] => Some st
  | ev :: evs' =>
      match step max_concurrent_research_units ev st with
      | Some st' => run max_concurrent_research_units evs' st'
      | None => None
      end
  end.

End Supervisor.

(** ** Concrete inputs

    Three statements of the first example of [CitationPrompt]
    ([src/prompts.py], lines 561-579), and variations on the cited one. *)

Definition title_statement : AnswerStatement :=
  {| reasoning := "The title summarizes the main topic of the document.";
     answer_sentece := "## Climate Change";
     reference_url := None;
     reference_title := None |}.

Definition intro_statement : AnswerStatement :=
  {| reasoning := "The context provides a summary of the main topic.";
     answer_sentece := "Here is the what context provides to your question:";
     reference_url := None;
     reference_title := None |}.

Definition cited_statement : AnswerStatement :=
  {| reasoning := "The context provides specific details about the main topic.";
     answer_sentece := "* The main topic is about climate change.";
     reference_url := Some "https://example.com/climate_change";
     reference_title := Some "Climate Change" |}.

Definition url_only_statement : AnswerStatement :=
  {| reasoning := reasoning cited_statement;
     answer_sentece := answer_sentece cited_statement;
     reference_url := reference_url cited_statement;
     reference_title := None |}.

Definition empty_title_statement : AnswerStatement :=
  {| reasoning := reasoning cited_statement;
     answer_sentece := answer_sentece cited_statement;
     reference_url := reference_url cited_statement;
     reference_title := Some EmptyString |}.

Definition climate_answer : AnswerWithCitations :=
  {| statements := [title_statement; intro_statement; cited_statement] |}.

(** A two-document corpus in the shape of the [Document]s of the
    [CitationPrompt] example; the second document has no title.  The sample
    retriever returns the first [k] documents of the corpus. *)
Definition sample_corpus : list Document :=
  [ {| page_content := "The main topic is about climate change.";
       metadata := {[ "title" := PyStr "Climate Change";
                      "url" := PyStr "https://example.com/climate_change" ]} |};
    {| page_content := "Climate change is a significant global challenge.";
       metadata :=
         {[ "url" := PyStr "https://example.com/global_challenge" ]} |} ].

Definition sample_retriever (query : string) (k : Z) : list Document :=
  take (Z.to_nat k) sample_corpus.

(** A retriever that returns the whole corpus whatever [k] it is asked for. *)
Definition unbounded_retriever (query : string) (k : Z) : list Document :=
  sample_corpus.

(** A document whose title is stored as a number, and one whose url entry
    is present and holds [None]. *)
Definition numbered_title_doc : Document :=
  {| page_content := "Nineteen Eighty-Four is a novel by George Orwell.";
     metadata := {[ "title" := PyInt 1984;
                    "url" := PyStr "https://example.com/1984" ]} |}.

Definition none_url_doc : Document :=
  {| page_content := "Climate change is a significant global challenge.";
     metadata := {[ "title" := PyStr "Global Challenge"; "url" := PyNone ]} |}.

(** What holds of a worker at every point of a run: the budget bounds the
    search calls, a worker in Searching with a non-zero budget still has
    budget left, every search is followed by one note, and a finished worker
    has a result. *)
Definition worker_invariant (max_tool_calls : nat) (st : Worker.State) : Prop :=
  Worker.search_calls (Worker.calls st) ≤ max_tool_calls
  ∧ (Worker.phase st = Worker.Start → Worker.calls st = [])
  ∧ (Worker.phase st = Worker.Searching → 1 ≤ max_tool_calls →
     Worker.search_calls (Worker.calls st) < max_tool_calls)
  ∧ Worker.search_calls (Worker.calls st)
    = (match Worker.phase st with
       | Worker.Reflecting => S (Worker.note_calls (Worker.calls st))
       | _ => Worker.note_calls (Worker.calls st)
       end)
  ∧ (Worker.phase st = Worker.Done → is_Some (Worker.result st)).

(** Collaborators that never give the worker a reason to stop: no
    confidence, no source, no repetition.  Retrieval is tried first, web
    search afterwards. *)
Definition stubborn : Worker.Collaborators :=
  {| Worker.pick_web := λ log, (1 <=? Worker.search_calls log)%nat;
     Worker.pick_query := λ _, "Kubernetes origin";
     Worker.search_results := λ _ _, 0%Z;
     Worker.reflection := λ _, "Nothing usable yet.";
     Worker.confident := λ _, false;
     Worker.sources_gathered := λ _, 0;
     Worker.last_two_similar := λ _, false;
     Worker.write_report := λ task _,
       {| report := research_topic task; references := [] |} |}.

Definition sample_task (topic : string) : SubagentInput :=
  {| original_request := "Summarize Kubernetes' origin and governance.";
     research_topic := topic |}.

Definition sample_result : SubagentOutput :=
  {| report := "done"; references := [] |}.

(** Five tasks are submitted, then two are dispatched. *)
Definition five_pending_two_dispatched : list Supervisor.Event :=
  [ Supervisor.Submit (sample_task "t0"); Supervisor.Submit (sample_task "t1");
    Supervisor.Submit (sample_task "t2"); Supervisor.Submit (sample_task "t3");
    Supervisor.Submit (sample_task "t4");
    Supervisor.Dispatch; Supervisor.Dispatch ].

(** ** Embedding model and tool client ([src/mcp_retrieval.py], lines 13-77) *)

(** What [ArcticEmbeddings.__init__] asks of [torch]. *)
Record Host := {
  cuda_is_available : bool;
  mps_is_available : bool
}.

(** The configuration an [ArcticEmbeddings] object holds: the arguments
    handed to [SentenceTransformer] and the batch size. *)
Record ArcticEmbeddings := {
  model_name : string;
  trust_remote_code : bool;
  device : string;
  torch_dtype : string;
  batch_size : nat
}.

(** [ArcticEmbeddings(model_name, batch_size=32)]. *)
Definition new_ArcticEmbeddings (host : Host) (model_name : string)
    (batch_size : option nat) : ArcticEmbeddings :=
  let batch_size := default 32 batch_size in
  let device :=
    if cuda_is_available host then "cuda"
    else if mps_is_available host then "mps"
    else "cpu" in
  {| model_name := model_name; trust_remote_code := true; device := device;
     torch_dtype := "float16"; batch_size := batch_size |}.

(** A value of [search_kwargs]; a float is kept as the literal the source
    writes. *)
Inductive KwValue :=
| KwInt (z : Z)
| KwFloat (literal : string).

Record Chroma := {
  collection_name : string;
  persist_directory : string;
  embedding_function : ArcticEmbeddings;
  anonymized_telemetry : bool
}.

(** [chroma_client.as_retriever(search_type=..., search_kwargs=...)]. *)
Record Retriever := {
  vectorstore : Chroma;
  search_type : string;
  search_kwargs : gmap string KwValue
}.

(** A [ToolClient] object.  [object_id] stands for the identity of the Python
    object: the number of clients built before it. *)
Record ToolClient := {
  object_id : nat;
  retriever : Retriever
}.

(** [ToolClient()], for the [object_id]-th object of the process. *)
Definition new_ToolClient (host : Host) (object_id : nat) : ToolClient :=
  let model_name := "Snowflake/snowflake-arctic-embed-m-v1.5" in
  let chroma_client :=
    {| collection_name := "wiki_chunks_30K";
       persist_directory := "./chroma_30K";
       embedding_function := new_ArcticEmbeddings host model_name None;
       anonymized_telemetry := false |} in
  {| object_id := object_id;
     retriever :=
       {| vectorstore := chroma_client;
          search_type := "mmr";
          search_kwargs := {[ "k" := KwInt 20; "fetch_k" := KwInt 50;
                              "lambda_mult" := KwFloat "0.8" ]} |} |}.

(** The module-level state: the global [_tool_client_instance], and how many
    times [ToolClient()] has run. *)
Record Process := {
  _tool_client_instance : option ToolClient;
  clients_built : nat
}.

(** The process when the module has just been imported. *)
Definition fresh_process : Process :=
  {| _tool_client_instance := None; clients_built := 0 |}.

Definition get_tool_client (host : Host) (p : Process) : ToolClient * Process :=
  match _tool_client_instance p with
  | None =>
      let client := new_ToolClient host (clients_built p) in
      (client, {| _tool_client_instance := Some client;
                  clients_built := S (clients_built p) |})
  | Some client => (client, p)
  end.

(** [n] calls of [get_tool_client] in a row: what each returned, and the
    process afterwards. *)
Fixpoint get_tool_client_times (host : Host) (n : nat) (p : Process)
  : list ToolClient * Process :=
  match n with
  | O => ([], p)
  | S n' =>
      let '(client, p1) := get_tool_client host p in
      let '(clients, p2) := get_tool_client_times host n' p1 in
      (client :: clients, p2)
  end.

Section RetrievalTool.

(** [retriever.ainvoke(query, k=top_k)] for the retriever of a client. *)
Variable ainvoke : Retriever → string → Z → list Document.

(** A call of the tool [retrieve_docs] in a process: the client is looked up
    through [get_tool_client], then its retriever is asked. *)
Definition retrieve_docs_call (host : Host) (query : string)
    (top_k : option Z) (p : Process) : option (list DocModel) * Process :=
  let '(client, p') := get_tool_client host p in
  (retrieve_docs (ainvoke (retriever client)) query top_k, p').

(** The tool serving a sequence of requests, one after the other; a call
    that raised leaves [None] as its answer and the process goes on. *)
Fixpoint serve (host : Host) (requests : list (string * option Z))
    (p : Process) : list (option (list DocModel)) * Process :=
  match requests with
  | [] => ([], p)
  | (query, top_k) :: rest =>
      let '(answer, p1) := retrieve_docs_call host query top_k p in
      let '(answers, p2) := serve host rest p1 in
      (answer :: answers, p2)
  end.

End RetrievalTool.

(** What of a statement reaches the output: its text and its reference, not
    its reasoning. *)
Definition rendered_fields (s : AnswerStatement)
  : string * option string * option string :=
  (answer_sentece s, reference_url s, reference_title s).

(** The statement with the rendering of [s] as its text and no reference. *)
Definition baked (s : AnswerStatement) : AnswerStatement :=
  {| reasoning := reasoning s;
     answer_sentece := statement_text s;
     reference_url := None;
     reference_title := None |}.

(** A document with one more metadata entry. *)
Definition with_metadata (key : string) (value : PyValue) (doc : Document)
  : Document :=
  {| page_content := page_content doc;
     metadata := <[key := value]> (metadata doc) |}.

Definition sample_host : Host :=
  {| cuda_is_available := false; mps_is_available := true |}.

(** A retriever function over the sample corpus, whatever the retriever. *)
Definition sample_ainvoke (r : Retriever) (query : string) (k : Z)
  : list Document :=
  sample_retriever query k.

Definition reworded_cited_statement : AnswerStatement :=
  {| reasoning := "Another line of reasoning.";
     answer_sentece := answer_sentece cited_statement;
     reference_url := reference_url cited_statement;
     reference_title := reference_title cited_statement |}.

(** One statement in place of two: its text is the two renderings with a
    newline between them, and it has no reference. *)
Definition merged (s1 s2 : AnswerStatement) : AnswerStatement :=
  {| reasoning := reasoning s1;
     answer_sentece := statement_text s1 +:+ Py.newline +:+ statement_text s2;
     reference_url := None;
     reference_title := None |}.

(** * Properties *)

(** ** Python string helpers *)

Section PyFacts.

Import Py.

Lemma join_cons (sep p : string) (rest : list string) :
  rest ≠ [] → join sep (p :: rest) = p +:+ sep +:+ join sep rest.
Proof. destruct rest; [congruence | reflexivity]. Qed.

Lemma split_lines_nonempty (s : string) : split_lines s ≠ [].
Proof.
  induction s as [|c s IH]; simpl; [discriminate |].
  destruct (Ascii.eqb c newline_char); [discriminate |].
  destruct (split_lines s); discriminate.
Qed.

Lemma split_lines_app_newline (a b : string) :
  split_lines (a +:+ newline +:+ b) = split_lines a ++ split_lines b.
Proof.
  induction a as [|c a IH]; simpl.
  - reflexivity.
  - destruct (Ascii.eqb c newline_char).
    + rewrite IH. reflexivity.
    + rewrite IH. pose proof (split_lines_nonempty a) as Hne.
      destruct (split_lines a); [congruence | reflexivity].
Qed.

Lemma split_lines_join (parts : list string) :
  parts ≠ [] →
  split_lines (join newline parts) = flat_map split_lines parts.
Proof.
  induction parts as [|p rest IH]; [congruence |]. intros _.
  destruct rest as [|q rest].
  - simpl. rewrite app_nil_r. reflexivity.
  - rewrite join_cons by discriminate.
    rewrite split_lines_app_newline, IH by discriminate. reflexivity.
Qed.

Lemma split_lines_newline_free (s : string) :
  newline_free s = true → split_lines s = [s].
Proof.
  induction s as [|c s IH]; simpl; [reflexivity |].
  destruct (Ascii.eqb c newline_char); simpl; [discriminate |].
  intros H. rewrite (IH H). reflexivity.
Qed.

Lemma flat_map_split_lines_newline_free (parts : list string) :
  Forall (λ p, newline_free p = true) parts →
  flat_map split_lines parts = parts.
Proof.
  induction 1 as [|p rest Hp _ IH]; simpl; [reflexivity |].
  rewrite (split_lines_newline_free _ Hp), IH. reflexivity.
Qed.

Lemma truthy_Some_nonempty (s : string) :
  s ≠ EmptyString → truthy (Some s) = true.
Proof. destruct s; [congruence | reflexivity]. Qed.

End PyFacts.

(** ** Citation rendering *)

Lemma loop_body_spec (fr : Frame) (statement : AnswerStatement) :
  loop_body fr statement =
  {| self_ := self_ fr;
     answer_text := answer_text fr ++ [statement_text statement];
     text := statement_text statement |}.
Proof.
  unfold loop_body, statement_text.
  destruct (Py.truthy (reference_url statement)
            && Py.truthy (reference_title statement)); reflexivity.
Qed.

Lemma fold_loop_body (l : list AnswerStatement) (fr : Frame) :
  self_ (fold_left loop_body l fr) = self_ fr
  ∧ answer_text (fold_left loop_body l fr)
    = answer_text fr ++ (statement_text <$> l).
Proof.
  revert fr. induction l as [|s l IH]; intros fr; simpl.
  - rewrite app_nil_r. done.
  - destruct (IH (loop_body fr s)) as [Hself Htext].
    rewrite Hself, Htext, loop_body_spec. simpl.
    rewrite <- app_assoc. done.
Qed.

Lemma format_response_join (a : AnswerWithCitations) :
  format_response a = Py.join Py.newline (statement_text <$> statements a).
Proof.
  unfold format_response, call_format_response. simpl.
  destruct (fold_loop_body (statements a)
              {| self_ := a; answer_text := []; text := EmptyString |})
    as [_ ->].
  reflexivity.
Qed.

Lemma call_format_response_receiver (a : AnswerWithCitations) :
  snd (call_format_response a) = a.
Proof.
  unfold call_format_response. simpl.
  apply (fold_loop_body (statements a)).
Qed.

Lemma format_response_at (pre post : list AnswerStatement) (s : AnswerStatement) :
  format_response {| statements := pre ++ s :: post |}
  = Py.join Py.newline
      ((statement_text <$> pre) ++ statement_text s :: (statement_text <$> post)).
Proof. rewrite format_response_join. simpl. rewrite fmap_app. reflexivity. Qed.

Lemma format_response_single (s : AnswerStatement) :
  format_response {| statements := [s] |} = statement_text s.
Proof. apply (format_response_at [] [] s). Qed.

Lemma statement_text_plain (s : AnswerStatement) :
  Py.truthy (reference_url s) && Py.truthy (reference_title s) = false →
  statement_text s = answer_sentece s.
Proof. unfold statement_text. intros ->. reflexivity. Qed.

Lemma statement_text_cited (s : AnswerStatement) (u t : string) :
  reference_url s = Some u → reference_title s = Some t →
  u ≠ EmptyString → t ≠ EmptyString →
  statement_text s = answer_sentece s +:+ " [[" +:+ t +:+ "](" +:+ u +:+ ")]".
Proof.
  intros Hu Ht Hune Htne. unfold statement_text. rewrite Hu, Ht.
  rewrite !truthy_Some_nonempty by assumption. reflexivity.
Qed.

(** C1, as the code has it: a statement whose reference url and reference
    title are both present (not [None], not empty) contributes, at its place
    in the output, its text followed by a space and the markdown link wrapped
    in one more pair of square brackets: [<text> [[<title>](<url>)]].
    Nothing else is added; a leading bullet is part of the text. *)
Theorem format_response_cited_line
    (pre post : list AnswerStatement) (s : AnswerStatement) (u t : string) :
  reference_url s = Some u → reference_title s = Some t →
  u ≠ EmptyString → t ≠ EmptyString →
  format_response {| statements := pre ++ s :: post |}
  = Py.join Py.newline
      ((statement_text <$> pre)
       ++ (answer_sentece s +:+ " [[" +:+ t +:+ "](" +:+ u +:+ ")]")
       :: (statement_text <$> post))
  ∧ format_response {| statements := [s] |}
    = answer_sentece s +:+ " [[" +:+ t +:+ "](" +:+ u +:+ ")]".
Proof.
  intros Hu Ht Hune Htne.
  rewrite (format_response_at pre post s), (format_response_single s).
  rewrite (statement_text_cited s u t) by assumption.
  split; reflexivity.
Qed.

Lemma format_response_cited_line_witness :
  format_response climate_answer
  = "## Climate Change" +:+ Py.newline
    +:+ "Here is the what context provides to your question:" +:+ Py.newline
    +:+ "* The main topic is about climate change. [[Climate Change](https://example.com/climate_change)]".
Proof.
  destruct (format_response_cited_line
              [title_statement; intro_statement] [] cited_statement
              "https://example.com/climate_change" "Climate Change")
    as [H _]; [reflexivity | reflexivity | discriminate | discriminate |].
  exact H.
Defined.

(** C1, as the claim words it, fails: for the cited statement of the
    source's own example the rendered line is not the text followed by the
    bare link [[title](url)]. *)
Lemma format_response_bare_link_counterexample :
  reference_url cited_statement = Some "https://example.com/climate_change"
  ∧ reference_title cited_statement = Some "Climate Change"
  ∧ format_response {| statements := [cited_statement] |}
    ≠ answer_sentece cited_statement
      +:+ " [" +:+ "Climate Change" +:+ "]("
      +:+ "https://example.com/climate_change" +:+ ")".
Proof. repeat split. vm_compute. discriminate. Qed.

(** C2: rendering is all or nothing.  A statement without a reference, or
    with only one of url and title, contributes its literal text and nothing
    else, wherever it stands in the answer. *)
Theorem format_response_all_or_nothing
    (pre post : list AnswerStatement) (s : AnswerStatement) :
  reference_url s = None ∨ reference_title s = None →
  format_response {| statements := pre ++ s :: post |}
  = Py.join Py.newline
      ((statement_text <$> pre) ++ answer_sentece s :: (statement_text <$> post))
  ∧ format_response {| statements := [s] |} = answer_sentece s.
Proof.
  intros Hnone.
  rewrite (format_response_at pre post s), (format_response_single s).
  rewrite statement_text_plain; [split; reflexivity |].
  destruct Hnone as [-> | ->]; simpl; [reflexivity | apply andb_false_r].
Qed.

Lemma format_response_all_or_nothing_witness :
  format_response {| statements := [url_only_statement] |}
  = "* The main topic is about climate change.".
Proof.
  destruct (format_response_all_or_nothing [] [] url_only_statement) as [_ H];
    [right; reflexivity |].
  exact H.
Defined.

(** C3: the output is the newline-join of the statements' renderings in
    list order.  Its lines are the lines of the first rendering, then those
    of the second, and so on; when no rendering contains a newline, line
    [i] of the output is the rendering of statement [i] and there are as
    many lines as statements. *)
Theorem format_response_order (a : AnswerWithCitations) :
  format_response a = Py.join Py.newline (statement_text <$> statements a)
  ∧ (statements a ≠ [] →
     Py.split_lines (format_response a)
     = flat_map (λ s, Py.split_lines (statement_text s)) (statements a))
  ∧ (Forall (λ s, Py.newline_free (statement_text s) = true) (statements a) →
     (∀ i s, statements a !! i = Some s →
             Py.split_lines (format_response a) !! i = Some (statement_text s))
     ∧ (statements a ≠ [] →
        length (Py.split_lines (format_response a)) = length (statements a))).
Proof.
  pose proof (format_response_join a) as Hjoin.
  assert (Hlines : statements a ≠ [] →
            Py.split_lines (format_response a)
            = flat_map Py.split_lines (statement_text <$> statements a)).
  { intros Hne. rewrite Hjoin. apply split_lines_join.
    destruct (statements a); [congruence | discriminate]. }
  split; [exact Hjoin |]. split.
  - intros Hne. rewrite (Hlines Hne).
    generalize (statements a). intros l.
    induction l as [|s l IH]; simpl; [reflexivity | f_equal; exact IH].
  - intros Hfree.
    assert (Hall : Forall (λ p, Py.newline_free p = true)
                     (statement_text <$> statements a)).
    { apply Forall_fmap. exact Hfree. }
    split.
    + intros i s Hi.
      assert (Hne : statements a ≠ []) by (intros E; rewrite E in Hi; done).
      rewrite (Hlines Hne), (flat_map_split_lines_newline_free _ Hall).
      rewrite list_lookup_fmap, Hi. reflexivity.
    + intros Hne.
      rewrite (Hlines Hne), (flat_map_split_lines_newline_free _ Hall).
      apply length_fmap.
Qed.

Lemma format_response_order_witness :
  Py.split_lines (format_response climate_answer) !! 2
  = Some "* The main topic is about climate change. [[Climate Change](https://example.com/climate_change)]".
Proof.
  destruct (format_response_order climate_answer) as (_ & _ & H).
  destruct H as [H _].
  - repeat constructor.
  - exact (H 2 cited_statement eq_refl).
Defined.

(** C4: rendering twice gives the same markdown.  A call leaves its
    receiver as it found it, so the second call, on the receiver as the
    first one left it, returns the same string. *)
Theorem format_response_idempotent (a : AnswerWithCitations) :
  snd (call_format_response a) = a
  ∧ fst (call_format_response (snd (call_format_response a)))
    = fst (call_format_response a).
Proof.
  pose proof (call_format_response_receiver a) as Hrecv.
  split; [exact Hrecv | rewrite Hrecv; reflexivity].
Qed.

(** C10: an empty url or an empty title counts as absent: the statement
    contributes its literal text, with no link fragment. *)
Theorem format_response_empty_reference
    (pre post : list AnswerStatement) (s : AnswerStatement) :
  reference_url s = Some EmptyString ∨ reference_title s = Some EmptyString →
  format_response {| statements := pre ++ s :: post |}
  = Py.join Py.newline
      ((statement_text <$> pre) ++ answer_sentece s :: (statement_text <$> post))
  ∧ format_response {| statements := [s] |} = answer_sentece s.
Proof.
  intros Hempty.
  rewrite (format_response_at pre post s), (format_response_single s).
  rewrite statement_text_plain; [split; reflexivity |].
  destruct Hempty as [-> | ->]; simpl; [reflexivity | apply andb_false_r].
Qed.

Lemma format_response_empty_reference_witness :
  format_response {| statements := [empty_title_statement] |}
  = "* The main topic is about climate change.".
Proof.
  destruct (format_response_empty_reference [] [] empty_title_statement)
    as [_ H]; [right; reflexivity |].
  exact H.
Defined.

(** ** Structured outputs *)

(** C5, as the code has it: a [ClarificationOutput] is built from any
    boolean, any optional question ([None] when the keyword is left out) and
    any list of statements, and keeps them as given; construction checks no
    relation between the fields.  The pairing (question present exactly when
    clarification is required, statements non-empty exactly when it is not)
    is what the field description asks for, and each example of
    [ClarificationPrompt] meets it. *)
Theorem clarification_output_unchecked :
  (∀ (required : bool) (question : option (option string))
     (stmts : list string),
     new_ClarificationOutput (Some required) question (Some stmts)
     = Some {| clarification_is_required := required;
               clarifying_question := default None question;
               final_statements := stmts |})
  ∧ Forall (λ ex, clarification_pairing ex.2) ClarificationPrompt_examples.
Proof.
  split; [reflexivity |].
  repeat constructor; simpl;
    try (intros H; first [discriminate | by destruct H | by eauto]).
Qed.

(** C5, as the claim words it, fails: a decision that requires
    clarification, carries no question and lists a statement is constructed
    without complaint, and it breaks both halves of the pairing. *)
Lemma clarification_pairing_counterexample :
  new_ClarificationOutput (Some true) None (Some ["Capital of France"])
  = Some {| clarification_is_required := true;
            clarifying_question := None;
            final_statements := ["Capital of France"] |}
  ∧ ¬ clarification_pairing
        {| clarification_is_required := true;
           clarifying_question := None;
           final_statements := ["Capital of France"] |}.
Proof.
  split; [reflexivity |].
  intros [[_ Hq] _]. destruct (Hq eq_refl) as [q Hsome]. discriminate.
Qed.

(** C6, as the code has it: a [PlannerOutput] is built from any two strings
    and any two lists of strings and keeps them as given; construction
    checks neither the number of steps, nor their distinctness, nor the
    number of topics.  The shape (exactly 3 pairwise different steps, at
    most 10 topics) is what the field descriptions ask for, and each example
    of [PlanPrompt] has it. *)
Theorem planner_output_unchecked :
  (∀ (rt rp : string) (topics steps : list string),
     new_PlannerOutput (Some rt) (Some topics) (Some rp) (Some steps)
     = Some {| reasoning_on_topics := rt; expanded_topics := topics;
               reasoning_on_plan := rp; plan := steps |})
  ∧ Forall (λ ex, plan_shape ex.2) PlanPrompt_examples.
Proof.
  split; [reflexivity |].
  repeat constructor; simpl;
    try (apply (bool_decide_unpack _); vm_compute; exact I).
Qed.

(** C6, as the claim words it, fails: a plan with a single step is
    constructed without complaint, and so is one with four steps of which
    two are the same. *)
Lemma plan_shape_counterexample :
  (new_PlannerOutput (Some "r") (Some ["Kubernetes origin"]) (Some "r")
     (Some ["Where did Kubernetes originate?"])
   = Some {| reasoning_on_topics := "r";
             expanded_topics := ["Kubernetes origin"];
             reasoning_on_plan := "r";
             plan := ["Where did Kubernetes originate?"] |}
   ∧ ¬ plan_shape
         {| reasoning_on_topics := "r";
            expanded_topics := ["Kubernetes origin"];
            reasoning_on_plan := "r";
            plan := ["Where did Kubernetes originate?"] |})
  ∧ (new_PlannerOutput (Some "r") (Some []) (Some "r")
       (Some ["a"; "b"; "a"; "c"])
     = Some {| reasoning_on_topics := "r"; expanded_topics := [];
               reasoning_on_plan := "r"; plan := ["a"; "b"; "a"; "c"] |}
     ∧ ¬ plan_shape
           {| reasoning_on_topics := "r"; expanded_topics := [];
              reasoning_on_plan := "r"; plan := ["a"; "b"; "a"; "c"] |}).
Proof.
  split; (split; [reflexivity |]); intros [Hlen _]; discriminate.
Qed.

(** ** Retrieval tool *)

Lemma validate_optional_str_is_Some (v : PyValue) :
  is_Some (validate_optional_str v) ↔ str_or_None v.
Proof.
  unfold str_or_None. destruct v; simpl; split;
    try (intros [? [=]]); try (intros [[=] | [? [=]]]); eauto.
Qed.

Lemma doc_item_is_Some (doc : Document) :
  is_Some (doc_item doc)
  ↔ str_or_None (dict_get (metadata doc) "url")
    ∧ str_or_None (dict_get (metadata doc) "title").
Proof.
  rewrite <- !validate_optional_str_is_Some. unfold doc_item, new_DocModel.
  destruct (validate_optional_str (dict_get (metadata doc) "url"));
    destruct (validate_optional_str (dict_get (metadata doc) "title"));
    simpl; rewrite ?is_Some_alt; tauto.
Qed.

Lemma validate_optional_str_Some (d : gmap string PyValue) (key : string)
    (o : option string) :
  validate_optional_str (dict_get d key) = Some o →
  (∀ s, o = Some s ↔ d !! key = Some (PyStr s))
  ∧ (o = None ↔ d !! key = None ∨ d !! key = Some PyNone).
Proof.
  unfold dict_get. destruct (d !! key) as [[]|]; simpl; intros [= <-];
    split; try intros s; split; intros H;
    try destruct H as [H | H]; try congruence; eauto.
Qed.

Lemma doc_item_Some (doc : Document) (item : DocModel) :
  doc_item doc = Some item →
  content item = page_content doc
  ∧ (∀ s, url item = Some s ↔ metadata doc !! "url" = Some (PyStr s))
  ∧ (url item = None
     ↔ metadata doc !! "url" = None ∨ metadata doc !! "url" = Some PyNone)
  ∧ (∀ s, title item = Some s ↔ metadata doc !! "title" = Some (PyStr s))
  ∧ (title item = None
     ↔ metadata doc !! "title" = None
       ∨ metadata doc !! "title" = Some PyNone).
Proof.
  unfold doc_item, new_DocModel.
  destruct (validate_optional_str (dict_get (metadata doc) "url"))
    as [u|] eqn:Hu; [| discriminate].
  destruct (validate_optional_str (dict_get (metadata doc) "title"))
    as [t|] eqn:Ht; [| discriminate].
  simpl. intros [= <-]. simpl.
  destruct (validate_optional_str_Some _ _ _ Hu) as [Hu1 Hu2].
  destruct (validate_optional_str_Some _ _ _ Ht) as [Ht1 Ht2].
  done.
Qed.

(** C7, as the code has it: [retrieve_docs] asks the retriever for
    [k = top_k], 3 when [top_k] is not given, and builds one item per
    document it gets back, in order.  The call returns exactly when the url
    and title entries of every retrieved document are missing, [None] or
    strings.  It then returns as many items as there were documents, so at
    most [top_k] if the retriever kept to [top_k]; item [i] carries the text
    of document [i], and its url (title) is the string stored under that
    key, absent exactly when the key is missing or holds [None]. *)
Theorem retrieve_docs_contract
    (ainvoke : string → Z → list Document)
    (query : string) (top_k : option Z) :
  let k := default 3%Z top_k in
  let docs := ainvoke query k in
  (is_Some (retrieve_docs ainvoke query top_k)
   ↔ Forall (λ doc, str_or_None (dict_get (metadata doc) "url")
                    ∧ str_or_None (dict_get (metadata doc) "title")) docs)
  ∧ (∀ items,
       retrieve_docs ainvoke query top_k = Some items →
       length items = length docs
       ∧ ((Z.of_nat (length docs) ≤ k)%Z → (Z.of_nat (length items) ≤ k)%Z)
       ∧ ∀ i doc,
           docs !! i = Some doc →
           ∃ item,
             items !! i = Some item
             ∧ content item = page_content doc
             ∧ (∀ s, url item = Some s
                     ↔ metadata doc !! "url" = Some (PyStr s))
             ∧ (url item = None
                ↔ metadata doc !! "url" = None
                  ∨ metadata doc !! "url" = Some PyNone)
             ∧ (∀ s, title item = Some s
                     ↔ metadata doc !! "title" = Some (PyStr s))
             ∧ (title item = None
                ↔ metadata doc !! "title" = None
                  ∨ metadata doc !! "title" = Some PyNone))
  ∧ retrieve_docs ainvoke query None = retrieve_docs ainvoke query (Some 3%Z).
Proof.
  intros k docs. unfold retrieve_docs. fold k. fold docs.
  split; [| split; [| reflexivity]].
  - rewrite mapM_is_Some. apply Forall_proper; [| reflexivity].
    intros doc. apply doc_item_is_Some.
  - intros items Hitems.
    pose proof (length_mapM _ _ _ Hitems) as Hlen.
    split; [by symmetry |]. split; [lia |].
    intros i doc Hdoc.
    apply mapM_Some_1 in Hitems.
    destruct (Forall2_lookup_l _ _ _ _ _ Hitems Hdoc) as (item & Hitem & Hbuilt).
    exists item. split; [exact Hitem |].
    exact (doc_item_Some doc item Hbuilt).
Qed.

Lemma sample_retriever_bound (q : string) (k : Z) :
  (0 ≤ k)%Z → (Z.of_nat (length (sample_retriever q k)) ≤ k)%Z.
Proof. intros Hk. unfold sample_retriever. rewrite length_take. lia. Qed.

Lemma retrieve_docs_contract_witness :
  ∃ items,
    retrieve_docs sample_retriever "climate" (Some 1%Z) = Some items
    ∧ length items = 1
    ∧ (Z.of_nat (length items) ≤ 1)%Z.
Proof.
  eexists. split; [reflexivity |].
  destruct (retrieve_docs_contract sample_retriever "climate" (Some 1%Z))
    as (_ & Hitems & _).
  destruct (Hitems _ eq_refl) as (Hlen & Hbound & _).
  split; [exact Hlen |].
  apply Hbound. apply (sample_retriever_bound "climate" 1%Z). lia.
Defined.

(** C7, as the claim words it, fails in three ways.  The number of items is
    the retriever's, not [top_k]'s: a retriever that returns two documents
    when asked for one gives two items.  A title stored as a number makes the
    call fail instead of returning a list.  And a url entry that is present
    but holds [None] gives an item without url. *)
Lemma retrieve_docs_counterexample :
  (λ items : list DocModel, length items)
    <$> retrieve_docs unbounded_retriever "climate" (Some 1%Z) = Some 2
  ∧ retrieve_docs (λ _ _, [numbered_title_doc]) "1984" None = None
  ∧ ((λ items : list DocModel, url <$> items)
       <$> retrieve_docs (λ _ _, [none_url_doc]) "climate" None
     = Some [None]
     ∧ "url" ∈ dom (metadata none_url_doc)).
Proof.
  split; [vm_compute; reflexivity |]. split; [vm_compute; reflexivity |].
  split; [vm_compute; reflexivity |].
  apply elem_of_dom. exists PyNone. reflexivity.
Qed.

Example retrieve_docs_sample :
  retrieve_docs sample_retriever "climate" None
  = Some [ {| content := "The main topic is about climate change.";
              url := Some "https://example.com/climate_change";
              title := Some "Climate Change" |};
           {| content := "Climate change is a significant global challenge.";
              url := Some "https://example.com/global_challenge";
              title := None |} ].
Proof. vm_compute. reflexivity. Qed.

(** ** Research worker *)

Section WorkerFacts.

Import Worker.

Variable c : Collaborators.
Variable task : SubagentInput.
Variable max_tool_calls : nat.

Lemma search_calls_snoc (log : list ToolCallRecord) (r : ToolCallRecord) :
  search_calls (log ++ [r])
  = search_calls log + (if is_search r then 1 else 0).
Proof.
  unfold search_calls. rewrite List.filter_app, length_app. simpl.
  destruct (is_search r); reflexivity.
Qed.

Lemma note_calls_snoc (log : list ToolCallRecord) (r : ToolCallRecord) :
  note_calls (log ++ [r]) = note_calls log + (if is_search r then 0 else 1).
Proof.
  unfold note_calls. rewrite List.filter_app, length_app. simpl.
  destruct (is_search r); reflexivity.
Qed.

Lemma calls_partition (log : list ToolCallRecord) :
  search_calls log + note_calls log = length log.
Proof.
  induction log as [|r log IH]; [reflexivity |].
  unfold search_calls, note_calls in *. simpl.
  destruct (is_search r); simpl; lia.
Qed.

Lemma is_search_search_call (log : list ToolCallRecord) :
  is_search (search_call c log) = true.
Proof. unfold search_call, is_search. simpl. by destruct (pick_web c log). Qed.

Lemma is_search_note_call (log : list ToolCallRecord) :
  is_search (note_call c log) = false.
Proof. reflexivity. Qed.

Lemma stop_condition_None (log : list ToolCallRecord) :
  stop_condition c max_tool_calls log = None →
  search_calls log < max_tool_calls.
Proof.
  unfold stop_condition.
  destruct (confident c log); [discriminate |].
  destruct (2 <=? sources_gathered c log); [discriminate |].
  destruct (last_two_similar c log); [discriminate |].
  destruct (max_tool_calls <=? search_calls log) eqn:Hle; [discriminate |].
  intros _. apply Nat.leb_gt. exact Hle.
Qed.

Lemma stop_condition_exhausted (log : list ToolCallRecord) :
  max_tool_calls ≤ search_calls log →
  is_Some (stop_condition c max_tool_calls log).
Proof.
  intros Hle. unfold stop_condition.
  destruct (confident c log); [eauto |].
  destruct (2 <=? sources_gathered c log); [eauto |].
  destruct (last_two_similar c log); [eauto |].
  apply Nat.leb_le in Hle. rewrite Hle. eauto.
Qed.

Lemma init_invariant : worker_invariant max_tool_calls init.
Proof.
  unfold worker_invariant, init, search_calls, note_calls. simpl.
  repeat split; intros; try done; lia.
Qed.

Lemma step_invariant (st : State) :
  worker_invariant max_tool_calls st →
  worker_invariant max_tool_calls (step c task max_tool_calls st).
Proof.
  intros (Hle & Hstart & Hsearch & Hnotes & Hdone).
  unfold worker_invariant, step.
  destruct (phase st) eqn:Hphase.
  - rewrite (Hstart eq_refl) in *. simpl.
    repeat split; intros; try done; unfold search_calls; simpl; lia.
  - destruct (search_calls (calls st) <? max_tool_calls) eqn:Hlt; simpl.
    + apply Nat.ltb_lt in Hlt.
      rewrite search_calls_snoc, note_calls_snoc, is_search_search_call.
      repeat split; intros; try done; lia.
    + repeat split; intros; try done.
  - destruct (stop_condition c max_tool_calls
                (calls st ++ [note_call c (calls st)])) as [why|] eqn:Hstop;
      simpl; rewrite search_calls_snoc, note_calls_snoc, is_search_note_call.
    + repeat split; intros; try done; lia.
    + apply stop_condition_None in Hstop.
      rewrite search_calls_snoc, is_search_note_call in Hstop.
      repeat split; intros; try done; lia.
  - simpl. repeat split; intros; try done; eauto.
  - rewrite Hphase. repeat split; try done; intros _; by apply Hdone.
Qed.

Lemma run_invariant (n : nat) (st : State) :
  worker_invariant max_tool_calls st →
  worker_invariant max_tool_calls (run c task max_tool_calls n st).
Proof.
  revert st. induction n as [|n IH]; intros st Hinv; simpl; [exact Hinv |].
  apply IH, step_invariant, Hinv.
Qed.

Lemma step_remaining (st : State) :
  phase st ≠ Done →
  remaining max_tool_calls (step c task max_tool_calls st)
  < remaining max_tool_calls st.
Proof.
  intros Hnd. unfold remaining, step.
  destruct (phase st) eqn:Hphase; [| | | | congruence].
  - simpl. lia.
  - destruct (search_calls (calls st) <? max_tool_calls) eqn:Hlt; simpl.
    + apply Nat.ltb_lt in Hlt.
      rewrite search_calls_snoc, is_search_search_call. lia.
    + lia.
  - destruct (stop_condition c max_tool_calls
                (calls st ++ [note_call c (calls st)])) as [why|] eqn:Hstop;
      simpl.
    + lia.
    + apply stop_condition_None in Hstop.
      rewrite search_calls_snoc, is_search_note_call in *. lia.
  - simpl. lia.
Qed.

Lemma remaining_zero (st : State) :
  remaining max_tool_calls st = 0 → phase st = Done.
Proof. unfold remaining. destruct (phase st); try done; lia. Qed.

Lemma run_reaches_done (n : nat) (st : State) :
  remaining max_tool_calls st ≤ n →
  phase (run c task max_tool_calls n st) = Done.
Proof.
  revert st. induction n as [|n IH]; intros st Hrem; simpl.
  - apply remaining_zero. lia.
  - apply IH. destruct (phase st) eqn:Hphase;
      try (pose proof (step_remaining st) as Hdec;
           rewrite Hphase in Hdec; specialize (Hdec ltac:(discriminate));
           lia).
    unfold step. rewrite Hphase. unfold remaining. rewrite Hphase. lia.
Qed.

Lemma execute_done : phase (execute c task max_tool_calls) = Done.
Proof. unfold execute. apply run_reaches_done. reflexivity. Qed.

End WorkerFacts.

(** With a budget of at least one call the forced stop is never taken: a
    worker in Searching always has budget left, so every search is decided
    by the stop conditions checked after a reflection. *)
Lemma worker_forced_stop_unused
    (c : Worker.Collaborators) (task : SubagentInput)
    (max_tool_calls n : nat) :
  1 ≤ max_tool_calls →
  Worker.phase (Worker.run c task max_tool_calls n Worker.init)
  = Worker.Searching →
  Worker.phase
    (Worker.step c task max_tool_calls
       (Worker.run c task max_tool_calls n Worker.init))
  = Worker.Reflecting.
Proof.
  intros Hpos Hphase.
  destruct (run_invariant c task max_tool_calls n Worker.init
              (init_invariant max_tool_calls)) as (_ & _ & Hsearch & _).
  specialize (Hsearch Hphase Hpos). apply Nat.ltb_lt in Hsearch.
  unfold Worker.step. rewrite Hphase, Hsearch. reflexivity.
Qed.

(** C8: at every point of every worker run the number of search-type calls
    (retrievals and web searches together) is at most [max_tool_calls].  A
    worker that has used its whole budget moves to Answering on its next
    transition without another search.  Notes are counted apart: one follows
    each search, and none counts towards the budget.  Every run ends in
    Done with a result, within the budget. *)
Theorem worker_search_budget
    (c : Worker.Collaborators) (task : SubagentInput)
    (max_tool_calls n : nat) :
  let st := Worker.run c task max_tool_calls n Worker.init in
  let st' := Worker.step c task max_tool_calls st in
  let final := Worker.execute c task max_tool_calls in
  Worker.search_calls (Worker.calls st) ≤ max_tool_calls
  ∧ (Worker.search_calls (Worker.calls st) = max_tool_calls →
     Worker.phase st = Worker.Searching ∨ Worker.phase st = Worker.Reflecting →
     Worker.phase st' = Worker.Answering
     ∧ Worker.search_calls (Worker.calls st') = max_tool_calls)
  ∧ (Worker.search_calls (Worker.calls st) + Worker.note_calls (Worker.calls st)
     = length (Worker.calls st)
     ∧ Worker.note_calls (Worker.calls st)
       ≤ Worker.search_calls (Worker.calls st))
  ∧ (Worker.phase final = Worker.Done
     ∧ is_Some (Worker.result final)
     ∧ Worker.search_calls (Worker.calls final) ≤ max_tool_calls
     ∧ Worker.note_calls (Worker.calls final)
       = Worker.search_calls (Worker.calls final)).
Proof.
  intros st st' final.
  pose proof (run_invariant c task max_tool_calls n Worker.init
                (init_invariant max_tool_calls)) as Hinv.
  fold st in Hinv.
  destruct Hinv as (Hle & _ & _ & Hnotes & _).
  split; [exact Hle |]. split; [| split].
  - intros Hfull Hphase. subst st'. unfold Worker.step.
    destruct Hphase as [Hphase | Hphase]; rewrite Hphase.
    + assert (Hlt : (Worker.search_calls (Worker.calls st) <? max_tool_calls)
                    = false) by (apply Nat.ltb_ge; lia).
      rewrite Hlt. simpl. done.
    + destruct (stop_condition_exhausted c max_tool_calls
                  (Worker.calls st ++ [Worker.note_call c (Worker.calls st)]))
        as [why Hwhy].
      { rewrite search_calls_snoc, is_search_note_call. lia. }
      rewrite Hwhy. simpl.
      rewrite search_calls_snoc, is_search_note_call. split; [done | lia].
  - split; [apply calls_partition |].
    destruct (Worker.phase st); lia.
  - pose proof (execute_done c task max_tool_calls) as Hdone. fold final in Hdone.
    pose proof (run_invariant c task max_tool_calls (2 * max_tool_calls + 3)
                  Worker.init (init_invariant max_tool_calls)) as Hfin.
    change (worker_invariant max_tool_calls final) in Hfin.
    destruct Hfin as (Hfle & _ & _ & Hfnotes & Hres).
    rewrite Hdone in Hfnotes.
    repeat split; [exact Hdone | by apply Hres | exact Hfle | by symmetry].
Qed.

Lemma worker_search_budget_witness :
  Worker.phase
    (Worker.step stubborn (sample_task "Kubernetes origin") 3
       (Worker.run stubborn (sample_task "Kubernetes origin") 3 6 Worker.init))
  = Worker.Answering
  ∧ Worker.search_calls
      (Worker.calls (Worker.execute stubborn (sample_task "Kubernetes origin") 3))
    ≤ 3.
Proof.
  destruct (worker_search_budget stubborn (sample_task "Kubernetes origin") 3 6)
    as (_ & Hstop & _ & (_ & _ & Hfinal & _)).
  split; [| exact Hfinal].
  apply Hstop; [reflexivity | right; reflexivity].
Defined.

Example stubborn_worker_run :
  let final := Worker.execute stubborn (sample_task "Kubernetes origin") 3 in
  Worker.kind <$> Worker.calls final
  = [ Worker.retrieval; Worker.note; Worker.web_search; Worker.note;
      Worker.web_search; Worker.note ]
  ∧ Worker.stopped_by final = Some Worker.BudgetExhausted
  ∧ Worker.phase final = Worker.Done.
Proof. vm_compute. done. Qed.

(** ** Research supervisor *)

Section SupervisorFacts.

Import Supervisor.

Variable max_concurrent_research_units : nat.

Lemma length_filter_le {A} (f : A → bool) (l : list A) :
  length (List.filter f l) ≤ length l.
Proof.
  induction l as [|x l IH]; simpl; [lia |].
  destruct (f x); simpl; lia.
Qed.

Lemma length_filter_lt {A} (f : A → bool) (l : list A) :
  existsb f l = true →
  length (List.filter (λ x, negb (f x)) l) < length l.
Proof.
  induction l as [|x l IH]; simpl; [discriminate |].
  destruct (f x); simpl.
  - intros _. pose proof (length_filter_le (λ x, negb (f x)) l). lia.
  - intros H. specialize (IH H). lia.
Qed.

Lemma step_bound (ev : Event) (st st' : State) :
  length (in_flight st) ≤ max_concurrent_research_units →
  step max_concurrent_research_units ev st = Some st' →
  length (in_flight st') ≤ max_concurrent_research_units.
Proof.
  intros Hle. destruct ev as [t | | slot r]; simpl.
  - intros [= <-]. exact Hle.
  - destruct (pending st) as [|t rest]; [discriminate |].
    destruct (length (in_flight st) <? max_concurrent_research_units)
      eqn:Hlt; [| discriminate].
    intros [= <-]. simpl. rewrite length_app. simpl.
    apply Nat.ltb_lt in Hlt. lia.
  - destruct (existsb (has_slot slot) (in_flight st)); [| discriminate].
    intros [= <-]. simpl.
    pose proof (length_filter_le (λ e, negb (has_slot slot e)) (in_flight st)).
    lia.
Qed.

Lemma run_bound (evs : list Event) (st st' : State) :
  length (in_flight st) ≤ max_concurrent_research_units →
  run max_concurrent_research_units evs st = Some st' →
  length (in_flight st') ≤ max_concurrent_research_units.
Proof.
  revert st. induction evs as [|ev evs IH]; intros st Hle; simpl.
  - intros [= <-]. exact Hle.
  - destruct (step max_concurrent_research_units ev st) as [st1|] eqn:Hstep;
      [| discriminate].
    apply IH. exact (step_bound ev st st1 Hle Hstep).
Qed.

Lemma complete_frees_slot (slot : nat) (r : SubagentOutput) (st st' : State) :
  step max_concurrent_research_units (Complete slot r) st = Some st' →
  length (in_flight st') < length (in_flight st) ∧ pending st' = pending st.
Proof.
  simpl. destruct (existsb (has_slot slot) (in_flight st)) eqn:Hin;
    [| discriminate].
  intros [= <-]. simpl. split; [| reflexivity].
  apply length_filter_lt. exact Hin.
Qed.

End SupervisorFacts.

(** C9: at every point of every supervisor run the number of tasks in
    flight is at most [max_concurrent_research_units].  While that many are
    in flight no further task is dispatched and the waiting tasks stay
    queued; once a worker returns, a slot is free again and the head of the
    queue can be dispatched. *)
Theorem supervisor_concurrency_bound
    (max_concurrent_research_units : nat) (evs : list Supervisor.Event)
    (st : Supervisor.State) :
  Supervisor.run max_concurrent_research_units evs Supervisor.init = Some st →
  length (Supervisor.in_flight st) ≤ max_concurrent_research_units
  ∧ (length (Supervisor.in_flight st) = max_concurrent_research_units →
     Supervisor.step max_concurrent_research_units Supervisor.Dispatch st = None)
  ∧ (length (Supervisor.in_flight st) < max_concurrent_research_units →
     Supervisor.pending st ≠ [] →
     is_Some
       (Supervisor.step max_concurrent_research_units Supervisor.Dispatch st))
  ∧ (∀ slot r st',
       Supervisor.step max_concurrent_research_units
         (Supervisor.Complete slot r) st = Some st' →
       length (Supervisor.in_flight st') < max_concurrent_research_units
       ∧ Supervisor.pending st' = Supervisor.pending st).
Proof.
  intros Hrun.
  assert (Hle : length (Supervisor.in_flight st) ≤ max_concurrent_research_units).
  { apply (run_bound max_concurrent_research_units evs Supervisor.init st);
      [simpl; lia | exact Hrun]. }
  split; [exact Hle |]. split; [| split].
  - intros Hfull. simpl. destruct (Supervisor.pending st); [reflexivity |].
    assert (Hlt : (length (Supervisor.in_flight st)
                   <? max_concurrent_research_units) = false)
      by (apply Nat.ltb_ge; lia).
    rewrite Hlt. reflexivity.
  - intros Hfree Hqueue. simpl.
    destruct (Supervisor.pending st); [congruence |].
    apply Nat.ltb_lt in Hfree. rewrite Hfree. eauto.
  - intros slot r st' Hstep.
    destruct (complete_frees_slot max_concurrent_research_units slot r st st'
                Hstep) as [Hlt Hpending].
    split; [lia | exact Hpending].
Qed.

Lemma supervisor_concurrency_bound_witness :
  ∃ st,
    Supervisor.run 2 five_pending_two_dispatched Supervisor.init = Some st
    ∧ length (Supervisor.in_flight st) ≤ 2
    ∧ length (Supervisor.pending st) = 3
    ∧ Supervisor.step 2 Supervisor.Dispatch st = None.
Proof.
  eexists. split; [reflexivity |].
  destruct (supervisor_concurrency_bound 2 five_pending_two_dispatched _ eq_refl)
    as (Hle & Hfull & _).
  split; [exact Hle |]. split; [reflexivity |].
  apply Hfull. reflexivity.
Defined.

Example supervisor_slot_reuse :
  Supervisor.run 2 (five_pending_two_dispatched ++ [Supervisor.Dispatch])
    Supervisor.init = None
  ∧ (λ st, (fst <$> Supervisor.in_flight st, fst <$> Supervisor.pending st))
    <$> Supervisor.run 2
          (five_pending_two_dispatched
           ++ [Supervisor.Complete 0 sample_result; Supervisor.Dispatch])
          Supervisor.init
    = Some ([1; 2], [3; 4]).
Proof. vm_compute. done. Qed.

(** * Further properties of the code *)

(** ** Strings and joins *)

Lemma str_app_cons (x : ascii) (a b : string) :
  String x a +:+ b = String x (a +:+ b).
Proof. reflexivity. Qed.

Lemma str_app_assoc (a b c : string) : (a +:+ b) +:+ c = a +:+ (b +:+ c).
Proof.
  induction a as [|x a IH]; [reflexivity |].
  rewrite !str_app_cons, IH. reflexivity.
Qed.

Lemma str_app_nil_r (a : string) : a +:+ EmptyString = a.
Proof.
  induction a as [|x a IH]; [reflexivity |].
  rewrite str_app_cons, IH. reflexivity.
Qed.

Lemma str_length_app (a b : string) :
  String.length (a +:+ b) = String.length a + String.length b.
Proof.
  induction a as [|x a IH]; [reflexivity |].
  rewrite str_app_cons. simpl. rewrite IH. reflexivity.
Qed.

Lemma str_app_cancel_l (a b c : string) : a +:+ b = a +:+ c → b = c.
Proof.
  induction a as [|x a IH]; [done |].
  rewrite !str_app_cons. intros [= H]. by apply IH.
Qed.

Lemma str_app_cancel_r (a b c : string) : a +:+ c = b +:+ c → a = b.
Proof.
  revert b. induction a as [|x a IH]; intros [|y b] H.
  - reflexivity.
  - apply (f_equal String.length) in H.
    rewrite !str_length_app in H. simpl in H. lia.
  - apply (f_equal String.length) in H.
    rewrite !str_length_app in H. simpl in H. lia.
  - rewrite !str_app_cons in H. injection H as -> H. f_equal. by apply IH.
Qed.

Lemma str_app_eq_nil (a b : string) :
  a +:+ b = EmptyString → a = EmptyString ∧ b = EmptyString.
Proof.
  destruct a; [done |]. rewrite str_app_cons. discriminate.
Qed.

Lemma join_app (sep : string) (l1 l2 : list string) :
  l1 ≠ [] → l2 ≠ [] →
  Py.join sep (l1 ++ l2) = Py.join sep l1 +:+ sep +:+ Py.join sep l2.
Proof.
  intros H1 H2. induction l1 as [|p l1 IH]; [congruence |].
  destruct l1 as [|q l1].
  - simpl. destruct l2; [congruence | reflexivity].
  - change ((p :: q :: l1) ++ l2) with (p :: ((q :: l1) ++ l2)).
    rewrite join_cons by discriminate.
    rewrite IH by discriminate.
    rewrite (join_cons sep p (q :: l1)) by discriminate.
    rewrite !str_app_assoc. reflexivity.
Qed.

Lemma join_middle_inj (sep x y : string) (before after : list string) :
  Py.join sep (before ++ x :: after) = Py.join sep (before ++ y :: after) →
  x = y.
Proof.
  assert (Htail : ∀ z, Py.join sep (z :: after)
                       = z +:+ (match after with
                                | [] => EmptyString
                                | _ => sep +:+ Py.join sep after
                                end)).
  { intros z. destruct after; simpl; [by rewrite str_app_nil_r | reflexivity]. }
  destruct before as [|b before].
  - simpl app. rewrite !Htail. apply str_app_cancel_r.
  - rewrite !(join_app sep (b :: before)) by discriminate.
    intros H. do 2 apply str_app_cancel_l in H.
    rewrite !Htail in H. by apply str_app_cancel_r in H.
Qed.

Lemma statement_text_rendered_fields (s1 s2 : AnswerStatement) :
  rendered_fields s1 = rendered_fields s2 →
  statement_text s1 = statement_text s2.
Proof.
  unfold rendered_fields, statement_text. intros [= -> -> ->]. reflexivity.
Qed.

Lemma statement_text_cited_longer (s : AnswerStatement) :
  Py.truthy (reference_url s) && Py.truthy (reference_title s) = true →
  ∃ link, link ≠ EmptyString ∧ statement_text s = answer_sentece s +:+ link.
Proof.
  unfold statement_text. intros ->. eexists. split; [| reflexivity].
  discriminate.
Qed.

(** ** Citation rendering, continued *)

(** X1: rendering distributes over concatenation.  The rendering of two
    non-empty statement lists put one after the other is the rendering of
    the first, a newline, and the rendering of the second. *)
Theorem format_response_app (l1 l2 : list AnswerStatement) :
  l1 ≠ [] → l2 ≠ [] →
  format_response {| statements := l1 ++ l2 |}
  = format_response {| statements := l1 |} +:+ Py.newline
    +:+ format_response {| statements := l2 |}.
Proof.
  intros H1 H2. rewrite !format_response_join. simpl. rewrite fmap_app.
  apply join_app; intros E; apply fmap_nil_inv in E; congruence.
Qed.

Lemma format_response_app_witness :
  format_response climate_answer
  = format_response {| statements := [title_statement; intro_statement] |}
    +:+ Py.newline +:+ format_response {| statements := [cited_statement] |}.
Proof.
  apply (format_response_app [title_statement; intro_statement]
           [cited_statement]); discriminate.
Defined.

(** X2: the reasoning of a statement never reaches the output.  Two answers
    whose statements agree, one by one, on text, url and title render to
    the same string. *)
Theorem format_response_ignores_reasoning (a b : AnswerWithCitations) :
  rendered_fields <$> statements a = rendered_fields <$> statements b →
  format_response a = format_response b.
Proof.
  intros Hsame. rewrite !format_response_join. f_equal.
  revert Hsame. generalize (statements b). generalize (statements a).
  induction l as [|s l IH]; intros [|s' l']; simpl; intros H;
    try discriminate; [reflexivity |].
  assert (Hs : rendered_fields s = rendered_fields s') by congruence.
  pose proof (f_equal tail H) as Hl.
  f_equal; [exact (statement_text_rendered_fields s s' Hs) | exact (IH l' Hl)].
Qed.

Lemma format_response_ignores_reasoning_witness :
  format_response {| statements := [title_statement; reworded_cited_statement] |}
  = format_response {| statements := [title_statement; cited_statement] |}.
Proof.
  apply format_response_ignores_reasoning. reflexivity.
Defined.

(** X3: the output is the empty string in two cases only: the answer has no
    statement, or it has a single statement whose text is empty and whose
    reference is incomplete. *)
Theorem format_response_empty_iff (a : AnswerWithCitations) :
  format_response a = EmptyString
  ↔ statements a = []
    ∨ ∃ s, statements a = [s]
           ∧ answer_sentece s = EmptyString
           ∧ Py.truthy (reference_url s) && Py.truthy (reference_title s)
             = false.
Proof.
  rewrite format_response_join. split.
  - destruct (statements a) as [|s [|s' l]]; simpl.
    + by left.
    + intros Hs. right. exists s. split; [reflexivity |].
      destruct (Py.truthy (reference_url s) && Py.truthy (reference_title s))
        eqn:Hc.
      * destruct (statement_text_cited_longer s Hc) as (link & Hne & Heq).
        rewrite Heq in Hs. by apply str_app_eq_nil in Hs as [_ ?].
      * by rewrite statement_text_plain in Hs.
    + intros H. apply str_app_eq_nil in H as [_ H]. discriminate.
  - intros [-> | (s & -> & Htext & Hc)]; simpl; [reflexivity |].
    by rewrite statement_text_plain.
Qed.

(** X4: the link is visible exactly when the reference is complete.  At any
    place of an answer, a statement contributes its bare text if and only if
    its url or its title is missing or empty. *)
Theorem format_response_plain_iff
    (pre post : list AnswerStatement) (s : AnswerStatement) :
  format_response {| statements := pre ++ s :: post |}
  = Py.join Py.newline
      ((statement_text <$> pre) ++ answer_sentece s :: (statement_text <$> post))
  ↔ Py.truthy (reference_url s) && Py.truthy (reference_title s) = false.
Proof.
  rewrite format_response_at. split.
  - intros H. apply join_middle_inj in H.
    destruct (Py.truthy (reference_url s) && Py.truthy (reference_title s))
      eqn:Hc; [| reflexivity].
    destruct (statement_text_cited_longer s Hc) as (link & Hne & Heq).
    rewrite Heq in H. rewrite <- (str_app_nil_r (answer_sentece s)) in H at 2.
    apply str_app_cancel_l in H. congruence.
  - intros Hc. by rewrite statement_text_plain.
Qed.

(** X5: the markdown does not determine the references.  Replacing a
    statement by one that has the statement's rendering as its text and no
    reference leaves the output unchanged. *)
Theorem format_response_baked
    (pre post : list AnswerStatement) (s : AnswerStatement) :
  format_response {| statements := pre ++ baked s :: post |}
  = format_response {| statements := pre ++ s :: post |}.
Proof.
  rewrite !format_response_at.
  rewrite (statement_text_plain (baked s)) by reflexivity. reflexivity.
Qed.

Lemma join_merge (sep x y : string) (before after : list string) :
  Py.join sep (before ++ x :: y :: after)
  = Py.join sep (before ++ (x +:+ sep +:+ y) :: after).
Proof.
  assert (Hhere : Py.join sep (x :: y :: after)
                  = Py.join sep ((x +:+ sep +:+ y) :: after)).
  { destruct after as [|z after]; [reflexivity |].
    rewrite (join_cons sep x), (join_cons sep y) by discriminate.
    rewrite (join_cons sep (x +:+ sep +:+ y)) by discriminate.
    rewrite !str_app_assoc. reflexivity. }
  destruct before as [|b before]; [exact Hhere |].
  rewrite !(join_app sep (b :: before)) by discriminate.
  rewrite Hhere. reflexivity.
Qed.

(** X9: the markdown does not determine where one statement ends and the
    next begins.  Two neighbouring statements render like the single
    statement whose text is their two renderings with a newline between
    them. *)
Theorem format_response_merged
    (pre post : list AnswerStatement) (s1 s2 : AnswerStatement) :
  format_response {| statements := pre ++ s1 :: s2 :: post |}
  = format_response {| statements := pre ++ merged s1 s2 :: post |}.
Proof.
  rewrite !format_response_join. simpl. rewrite !fmap_app. simpl.
  rewrite join_merge.
  rewrite (statement_text_plain (merged s1 s2)) by reflexivity. reflexivity.
Qed.

(** ** Tool client and retrieval tool, continued *)

Lemma get_tool_client_cached (host : Host) (p : Process) (client : ToolClient) :
  _tool_client_instance p = Some client →
  get_tool_client host p = (client, p).
Proof. unfold get_tool_client. intros ->. reflexivity. Qed.

Lemma get_tool_client_stored (host : Host) (p : Process) :
  _tool_client_instance (snd (get_tool_client host p))
  = Some (fst (get_tool_client host p)).
Proof.
  unfold get_tool_client.
  destruct (_tool_client_instance p) eqn:Hinst; simpl; [exact Hinst | reflexivity].
Qed.

Lemma get_tool_client_times_cached
    (host : Host) (n : nat) (p : Process) (client : ToolClient) :
  _tool_client_instance p = Some client →
  get_tool_client_times host n p = (replicate n client, p).
Proof.
  intros Hinst. induction n as [|n IH]; simpl; [reflexivity |].
  rewrite (get_tool_client_cached host p client Hinst), IH. reflexivity.
Qed.

(** X6: the tool client is a singleton.  However often [get_tool_client] is
    called, every call returns the client of the first call, the process is
    left as the first call left it, and [ToolClient()] runs once if no
    client existed before and not at all otherwise. *)
Theorem get_tool_client_singleton (host : Host) (n : nat) (p : Process) :
  let first := get_tool_client host p in
  let calls := get_tool_client_times host (S n) p in
  fst calls = replicate (S n) (fst first)
  ∧ snd calls = snd first
  ∧ clients_built (snd calls)
    = clients_built p
      + (match _tool_client_instance p with Some _ => 0 | None => 1 end).
Proof.
  intros first calls. subst calls. simpl.
  pose proof (get_tool_client_stored host p) as Hstored. fold first in Hstored.
  destruct (get_tool_client host p) as [client p1] eqn:Hfirst.
  subst first. simpl in *.
  rewrite (get_tool_client_times_cached host n p1 client Hstored). simpl.
  repeat split.
  unfold get_tool_client in Hfirst.
  destruct (_tool_client_instance p); injection Hfirst as <- <-; simpl; lia.
Qed.

Section RetrievalToolFacts.

Variable ainvoke : Retriever → string → Z → list Document.

Lemma serve_cached (host : Host) (requests : list (string * option Z))
    (p : Process) (client : ToolClient) :
  _tool_client_instance p = Some client →
  serve ainvoke host requests p
  = ((λ r, retrieve_docs (ainvoke (retriever client)) r.1 r.2) <$> requests, p).
Proof.
  intros Hinst. induction requests as [|[query top_k] rest IH]; simpl;
    [reflexivity |].
  unfold retrieve_docs_call.
  rewrite (get_tool_client_cached host p client Hinst), IH. reflexivity.
Qed.

End RetrievalToolFacts.

(** X7: a sequence of [retrieve_docs] calls is served by one client.  Each
    answer is what the retriever of the client of the first call gives for
    that query and [top_k]; the client is built by the first call if the
    process had none, and no later call builds another. *)
Theorem serve_one_client
    (ainvoke : Retriever → string → Z → list Document) (host : Host)
    (requests : list (string * option Z)) (p : Process) :
  let client := fst (get_tool_client host p) in
  let served := serve ainvoke host requests p in
  fst served
  = (λ r, retrieve_docs (ainvoke (retriever client)) r.1 r.2) <$> requests
  ∧ snd served
    = (match requests with [] => p | _ => snd (get_tool_client host p) end)
  ∧ clients_built (snd served) ≤ S (clients_built p).
Proof.
  intros client served. subst served.
  destruct requests as [|[query top_k] rest]; simpl.
  { repeat split; lia. }
  unfold retrieve_docs_call.
  pose proof (get_tool_client_stored host p) as Hstored.
  assert (Hbuilt : clients_built (snd (get_tool_client host p))
                   ≤ S (clients_built p)).
  { unfold get_tool_client. destruct (_tool_client_instance p); simpl; lia. }
  subst client.
  destruct (get_tool_client host p) as [c p1]. simpl in *.
  rewrite (serve_cached ainvoke host rest p1 c Hstored). simpl.
  repeat split. exact Hbuilt.
Qed.

Lemma with_metadata_lookup (key name : string) (value : PyValue)
    (doc : Document) :
  key ≠ name →
  metadata (with_metadata key value doc) !! name = metadata doc !! name.
Proof. intros Hne. unfold with_metadata. simpl. by apply lookup_insert_ne. Qed.

Lemma doc_item_with_metadata (key : string) (value : PyValue)
    (doc : Document) :
  key ≠ "url" → key ≠ "title" →
  doc_item (with_metadata key value doc) = doc_item doc.
Proof.
  intros Hurl Htitle. unfold doc_item, dict_get.
  rewrite !(with_metadata_lookup key _ value doc) by assumption. reflexivity.
Qed.

Lemma mapM_fmap {A B C} (f : B → option C) (g : A → B) (l : list A) :
  mapM f (g <$> l) = mapM (λ x, f (g x)) l.
Proof.
  induction l as [|x l IH]; [reflexivity |].
  rewrite fmap_cons. simpl. rewrite IH. reflexivity.
Qed.

(** X8: of the metadata only [url] and [title] reach the output.  Adding or
    overwriting any other metadata entry in the retrieved documents leaves
    the result of [retrieve_docs] unchanged. *)
Theorem retrieve_docs_other_metadata
    (ainvoke : string → Z → list Document) (key : string) (value : PyValue)
    (query : string) (top_k : option Z) :
  key ≠ "url" → key ≠ "title" →
  retrieve_docs (λ q k, with_metadata key value <$> ainvoke q k) query top_k
  = retrieve_docs ainvoke query top_k.
Proof.
  intros Hurl Htitle. unfold retrieve_docs. simpl.
  rewrite mapM_fmap. apply mapM_ext. intros doc.
  apply doc_item_with_metadata; assumption.
Qed.

Lemma retrieve_docs_other_metadata_witness :
  retrieve_docs
    (λ q k, with_metadata "source" (PyStr "wiki") <$> sample_retriever q k)
    "climate" None
  = retrieve_docs sample_retriever "climate" None.
Proof.
  apply retrieve_docs_other_metadata; discriminate.
Defined.

Example serve_sample :
  let served :=
    serve sample_ainvoke sample_host
      [("climate", None); ("challenge", Some 1%Z)] fresh_process in
  (λ answer : option (list DocModel), length <$> answer) <$> fst served
  = [Some 2; Some 1]
  ∧ clients_built (snd served) = 1
  ∧ object_id <$> _tool_client_instance (snd served) = Some 0
  ∧ (device ∘ embedding_function ∘ vectorstore ∘ retriever)
    <$> _tool_client_instance (snd served) = Some "mps".
Proof. vm_compute. done. Qed.
